(** * xnat-cleaner: a shallow embedding of [cleaner.py]

    The module pulls the sessions and scans of one subject from an XNAT
    server, matches the scans against a table of scan type renames and
    prints two consistency checks.  The embedding follows the Python text
    statement by statement: exceptions are values of [PyExc], a statement
    that may raise runs in the monad [M], and the [pandas] operations the
    module relies on ([DataFrame], [iterrows], [loc], [duplicated], ...)
    are given the meaning they have in the library. *)

From stdpp Require Import base option list strings gmap.

(** ** Exceptions and the statement monad *)

Inductive PyExc : Type :=
| ValueError (msg : string)
| AttributeError (type_name attr : string)
| KeyError (key : string)
| NameError (name : string)
| AssertionError
| RemoteError (msg : string).

Inductive Result (A : Type) : Type :=
| Ok (a : A)
| Raise (e : PyExc).
Arguments Ok {A} a.
Arguments Raise {A} e.

(** A statement reads and writes a state [S]; when it raises, the effects
    it had before the exception stay. *)
Definition M (S A : Type) : Type := S → Result A * S.

Definition ret {S A} (a : A) : M S A := λ st, (Ok a, st).

Definition bind {S A B} (m : M S A) (k : A → M S B) : M S B :=
  λ st, match m st with
        | (Ok a, st') => k a st'
        | (Raise e, st') => (Raise e, st')
        end.

Definition raise {S A} (e : PyExc) : M S A := λ st, (Raise e, st).

Definition lift {S A} (r : Result A) : M S A := λ st, (r, st).

Definition get {S} : M S S := λ st, (Ok st, st).

Definition modify {S} (f : S → S) : M S unit := λ st, (Ok (), f st).

#[export] Instance M_ret S : MRet (M S) := λ A, @ret S A.
#[export] Instance M_bind S : MBind (M S) := λ A B k m, @bind S A B m k.

Definition Result_bind {A B} (k : A → Result B) (r : Result A) : Result B :=
  match r with
  | Ok a => k a
  | Raise e => Raise e
  end.

#[export] Instance Result_ret : MRet Result := @Ok.
#[export] Instance Result_mbind : MBind Result := @Result_bind.

(** [try: body except: handler], a bare [except] catches every exception. *)
Definition try_except {S A} (body handler : M S A) : M S A :=
  λ st, match body st with
        | (Ok a, st') => (Ok a, st')
        | (Raise _, st') => handler st'
        end.

(** [assert b] *)
Definition py_assert {S} (b : bool) : M S unit :=
  if b then ret () else raise AssertionError.

(** [for x in xs: body x] *)
Fixpoint for_each {S A} (xs : list A) (body : A → M S unit) : M S unit :=
  match xs with
  | [] => ret ()
  | x :: xs' => bind (body x) (λ _, for_each xs' body)
  end.

(** ** The part of pandas the module uses *)

(** A [Series] is a column of values with their index labels. *)
Abbreviation Series A := (list (nat * A)).

(** A [DataFrame] has column labels and rows; a row keeps its index label.
    The rows are records whose fields are the entries of the columns. *)
Record DataFrame (R : Type) : Type := mkDataFrame {
  columns : list string;
  rows : list (nat * R)
}.
Arguments mkDataFrame {R} columns rows.
Arguments columns {R} d.
Arguments rows {R} d.

(** The keys of the dictionaries a frame is built from. *)
Class Keys (R : Type) : Type := keys : list string.
Arguments keys R {_}.

(** [enumerate xs] from a start label. *)
Fixpoint enumerate_from {A} (i : nat) (xs : list A) : list (nat * A) :=
  match xs with
  | [] => []
  | x :: xs' => (i, x) :: enumerate_from (S i) xs'
  end.

(** [pandas.DataFrame(data)] for a list of dictionaries: a range index,
    and the columns are the keys of the dictionaries, so an empty list
    gives a frame with no column at all. *)
Definition DataFrame_of {R} `{Keys R} (data : list R) : DataFrame R :=
  {| columns := match data with [] => [] | _ :: _ => keys R end;
     rows := enumerate_from 0 data |}.

(** [df.iterrows()] *)
Definition iterrows {R} (df : DataFrame R) : list (nat * R) := rows df.

(** [iter(df)]: iterating a frame itself yields its column labels. *)
Definition iter_frame {R} (df : DataFrame R) : list string := columns df.

Definition has_column {R} (name : string) (df : DataFrame R) : bool :=
  bool_decide (name ∈ columns df).

Definition column_values {R A} (field : R → A) (df : DataFrame R) : Series A :=
  map (λ ir, (ir.1, field ir.2)) (rows df).

(** [df.name]: attribute access to a column. *)
Definition getattr_column {R A} (name : string) (field : R → A)
    (df : DataFrame R) : Result (Series A) :=
  if has_column name df then Ok (column_values field df)
  else Raise (AttributeError "DataFrame" name).

(** [df['name']] *)
Definition getitem_column {R A} (name : string) (field : R → A)
    (df : DataFrame R) : Result (Series A) :=
  if has_column name df then Ok (column_values field df)
  else Raise (KeyError name).

Definition tolist {A} (s : Series A) : list A := map snd s.

(** [s.apply(f)] *)
Definition Series_apply {A B} (f : A → B) (s : Series A) : Series B :=
  map (λ ia, (ia.1, f ia.2)) s.

(** [s == v] *)
Definition Series_eq (s : Series string) (v : string) : Series bool :=
  Series_apply (λ x, bool_decide (x = v)) s.

(** [s.sum()] of a boolean series. *)
Definition Series_sum (s : Series bool) : nat :=
  length (filter (λ ib, ib.2 = true) s).

(** [s.duplicated()] with the default [keep='first']: an entry is marked
    when its value has been seen at an earlier position. *)
Fixpoint duplicated_from (seen : list string) (s : Series string) : Series bool :=
  match s with
  | [] => []
  | (i, x) :: s' => (i, bool_decide (x ∈ seen)) :: duplicated_from (x :: seen) s'
  end.

Definition Series_duplicated (s : Series string) : Series bool :=
  duplicated_from [] s.

(** Rows selected by a boolean mask.  Every mask in the module is computed
    from the frame it selects from, so it has the frame's index and the
    selection goes row by row. *)
Fixpoint select_rows {R} (rs : list (nat * R)) (mask : Series bool) : list (nat * R) :=
  match rs, mask with
  | r :: rs', (_, b) :: mask' =>
      if b then r :: select_rows rs' mask' else select_rows rs' mask'
  | _, _ => []
  end.

(** [df.loc[mask]] *)
Definition loc {R} (df : DataFrame R) (mask : Series bool) : DataFrame R :=
  {| columns := columns df; rows := select_rows (rows df) mask |}.

(** ** Strings and tuple unpacking *)

(** [s in x] for two strings: [s] occurs in [x], letter case included. *)
Fixpoint str_in (s x : string) : bool :=
  if String.prefix s x then true
  else match x with
       | EmptyString => false
       | String _ x' => str_in s x'
       end.

(** [a, b = item] for a string [item]: its characters are unpacked, and
    there must be exactly two of them. *)
Definition unpack2 (item : string) : Result (string * string) :=
  match item with
  | EmptyString => Raise (ValueError "not enough values to unpack (expected 2, got 0)")
  | String _ EmptyString =>
      Raise (ValueError "not enough values to unpack (expected 2, got 1)")
  | String a (String b EmptyString) =>
      Ok (String a EmptyString, String b EmptyString)
  | String _ (String _ (String _ _)) =>
      Raise (ValueError "too many values to unpack (expected 2)")
  end.

(** [s.attr] for a string [s] and an attribute [str] does not have. *)
Definition str_getattr (s attr : string) : Result string :=
  Raise (AttributeError "str" attr).

(** ** Records of the XNAT listings *)

(** The entries of [dax.XnatUtils.list_sessions] the module reads. *)
Record Session : Type := mkSession {
  sess_ID : string;
  sess_label : string;
  sess_date : string;
  sess_subject_ID : string
}.

#[export] Instance Session_keys : Keys Session :=
  ["ID"; "label"; "date"; "subject_ID"].

(** The entries of [dax.XnatUtils.list_scans] the module reads. *)
Record Scan : Type := mkScan {
  ID : string;
  series_description : string;
  scan_type : string
}.

#[export] Instance Scan_keys : Keys Scan :=
  ["ID"; "series_description"; "scan_type"].

(** A row of [scan_type_renames.csv]. *)
Record RenameRule : Type := mkRenameRule {
  rule_project : string;
  rule_series_description : string;
  rule_scan_type : string;
  updated_scan_type : string
}.

#[export] Instance RenameRule_keys : Keys RenameRule :=
  ["project"; "series_description"; "scan_type"; "updated_scan_type"].

(** One set call, [interface.select(obj).attrs.set(attr, value)]. *)
Record SetCall : Type := mkSetCall {
  call_obj : string;
  call_attr : string;
  call_value : string
}.

(** The XNAT interface ([dax.XnatUtils] and the pyxnat object behind it)
    over the state of the server.  The two listings are reads and are taken
    to return; a set call may raise. *)
Class Interface (World : Type) : Type := {
  list_sessions : World → string → string → list Session;
  list_scans : World → string → string → string → list Scan;
  attrs_set : SetCall → World → Result unit * World
}.

(** The server together with the set calls issued so far. *)
Record Remote (World : Type) : Type := mkRemote {
  world : World;
  calls : list SetCall
}.
Arguments mkRemote {World} world calls.
Arguments world {World} r.
Arguments calls {World} r.

(** ** class XnatSubject *)

Record Meta : Type := mkMeta {
  project : string;
  nsessions : nat;
  session_date : list string;
  session_id : list string;
  session_label : list string;
  subject_id : list string
}.

Record XnatSubject : Type := mkXnatSubject {
  subject : string;
  database : string;
  meta : Meta;
  session_df : DataFrame Session;
  scan_df : DataFrame Scan
}.

(** What a method call runs on: the server and the object [self]. *)
Record Run (World : Type) : Type := mkRun {
  server : Remote World;
  self : XnatSubject
}.
Arguments mkRun {World} server self.
Arguments server {World} r.
Arguments self {World} r.

Definition too_many_sessions : PyExc :=
  ValueError "This subject has too many sessions in XNAT. Please combine them.".

Section Methods.
Context {World : Type} `{Interface World}.

(** [interface.select(obj).attrs.set(attr, value)]: the call is issued,
    then the server answers. *)
Definition select_attrs_set (obj attr value : string) : M (Remote World) unit :=
  λ r, let c := mkSetCall obj attr value in
       let '(res, w) := attrs_set c (world r) in
       (res, mkRemote w (calls r ++ [c])).

(** The loop of [get_metadata] that gathers the scans of every session. *)
Fixpoint gather_scans (w : World) (database subject : string)
    (sessions : list (nat * Session)) (scan_data : list Scan) : list Scan :=
  match sessions with
  | [] => scan_data
  | (_, sess) :: rest =>
      gather_scans w database subject rest
        (scan_data ++ list_scans w database subject (sess_label sess))
  end.

(** [get_metadata], for the subject and database stored by [__init__]. *)
Definition get_metadata (subject_label database : string)
    : M (Remote World) XnatSubject :=
  r ← get;
  let session_data := list_sessions (world r) database subject_label in
  let sess_df := DataFrame_of session_data in
  let scan_data := gather_scans (world r) database subject_label (iterrows sess_df) [] in
  let scan_df := DataFrame_of scan_data in
  if negb (length session_data =? 1) then raise too_many_sessions
  else
    date ← lift (getitem_column "date" sess_date sess_df);
    id ← lift (getitem_column "ID" sess_ID sess_df);
    label ← lift (getitem_column "label" sess_label sess_df);
    subj ← lift (getitem_column "subject_ID" sess_subject_ID sess_df);
    mret {| subject := subject_label;
            database := database;
            meta := {| project := String.substring 0 3 subject_label;
                       nsessions := length session_data;
                       session_date := tolist date;
                       session_id := tolist id;
                       session_label := tolist label;
                       subject_id := tolist subj |};
            session_df := sess_df;
            scan_df := scan_df |}.

(** [XnatSubject(subject_label, database, xnat)]: the constructor stores
    its arguments and loads the metadata. *)
Definition XnatSubject_init (subject_label database : string)
    : M (Remote World) XnatSubject :=
  get_metadata subject_label database.

(** A statement on the server, inside a method call. *)
Definition on_server {A} (m : M (Remote World) A) : M (Run World) A :=
  λ st, let '(res, r) := m (server st) in (res, mkRun r (self st)).

(** The body of the loop of [get_scan_rename_dict] for one item of the
    iteration; in the assignment the right-hand side is evaluated first. *)
Definition rename_step (item : string) : M (gmap (string * string) string) unit :=
  '(ii, s) ← lift (unpack2 item);
  new ← lift (str_getattr s "updated_scan_type");
  sd ← lift (str_getattr s "series_description");
  ty ← lift (str_getattr s "scan_type");
  modify (λ rename_dict : gmap (string * string) string,
            <[(sd, ty) := new]> rename_dict).

(** [get_scan_rename_dict]; [df] is what [pandas.read_csv] returned for
    [scan_type_renames.csv].  The loop runs over the selected frame
    itself. *)
Definition get_scan_rename_dict (df : DataFrame RenameRule) (this : XnatSubject)
    : Result (gmap (string * string) string) :=
  proj ← getattr_column "project" rule_project df;
  let selected := loc df (Series_eq proj (project (meta this))) in
  match for_each (iter_frame selected) rename_step ∅ with
  | (Ok _, rename_dict) => Ok rename_dict
  | (Raise e, _) => Raise e
  end.

(** The body of the loop of [match_scan_types], for one row of
    [self.scan_df]. *)
Definition match_row (rename_dict : gmap (string * string) string)
    (overwrite : bool) (row : nat * Scan) : M (Run World) unit :=
  let scan := row.2 in
  let scan_tuple := (series_description scan, scan_type scan) in
  match rename_dict !! scan_tuple with
  | Some new_type =>
      if overwrite
      then on_server (select_attrs_set (ID scan) "scan_type" new_type)
      else mret ()
  | None => mret ()
  end.

(** The loop of [match_scan_types], once [rename_dict] is there. *)
Definition match_scans (rename_dict : gmap (string * string) string)
    (overwrite : bool) : M (Run World) unit :=
  st ← get;
  for_each (iterrows (scan_df (self st))) (match_row rename_dict overwrite).

(** [match_scan_types(overwrite)] *)
Definition match_scan_types (df : DataFrame RenameRule) (overwrite : bool)
    : M (Run World) unit :=
  st ← get;
  rename_dict ← lift (get_scan_rename_dict df (self st));
  match_scans rename_dict overwrite.

End Methods.

(** ** test_xnat_subject *)

(** What [print] writes: the fixed texts of the module, and for the two
    listings the series that [to_string] renders. *)
Inductive Line : Type :=
| OutputLogFor (subject_label : string)
| NoDuplicateScanTypes
| ThereAreDuplicateScans (listing : Series string)
| NoIncompleteOrUnusableScans
| ThereAreIncompleteScans (listing : Series string).

Definition print (l : Line) : M (list Line) unit :=
  modify (λ out, out ++ [l]).

(** The values a name of the module can be bound to. *)
Inductive PyVal : Type :=
| VSubject (s : XnatSubject)
| VModule (name : string)
| VClass (name : string)
| VFunction (name : string).

(** The global names of [cleaner.py]. *)
Definition module_globals : list (string * PyVal) :=
  [("dax", VModule "dax"); ("pandas", VModule "pandas");
   ("XnatSubject", VClass "XnatSubject");
   ("test_xnat_subject", VFunction "test_xnat_subject")].

Fixpoint assoc (name : string) (env : list (string * PyVal)) : option PyVal :=
  match env with
  | [] => None
  | (n, v) :: env' => if bool_decide (n = name) then Some v else assoc name env'
  end.

(** Reading a name inside a function: its local names, then the globals of
    the module (no builtin is called [x]). *)
Definition load_name (locals : list (string * PyVal)) (name : string) : Result PyVal :=
  match assoc name (locals ++ module_globals) with
  | Some v => Ok v
  | None => Raise (NameError name)
  end.

(** [v.subject] *)
Definition getattr_subject (v : PyVal) : Result string :=
  match v with
  | VSubject s => Ok (subject s)
  | VModule _ => Raise (AttributeError "module" "subject")
  | VClass _ => Raise (AttributeError "type" "subject")
  | VFunction _ => Raise (AttributeError "function" "subject")
  end.

Definition check_duplicate_scans (xnat_subject : XnatSubject) : M (list Line) unit :=
  let df := scan_df xnat_subject in
  types ← lift (getattr_column "scan_type" scan_type df);
  let duplicates := loc df (Series_duplicated types) in
  try_except
    (py_assert (bool_decide (length (rows duplicates) = 0));;
     print NoDuplicateScanTypes)
    (listing ← lift (getitem_column "scan_type" scan_type duplicates);
     print (ThereAreDuplicateScans listing)).

Definition bad_strings : list string := ["inc"; "bad"; "incomplete"].

(** [lambda x: any(s in x for s in bad_strings)] *)
Definition any_bad_string (x : string) : bool :=
  existsb (λ s, str_in s x) bad_strings.

Definition check_incomplete_scans (xnat_subject : XnatSubject) : M (list Line) unit :=
  let df := scan_df xnat_subject in
  types ← lift (getattr_column "scan_type" scan_type df);
  let bad_scans := Series_apply any_bad_string types in
  try_except
    (py_assert (bool_decide (Series_sum bad_scans = 0));;
     print NoIncompleteOrUnusableScans)
    (listing ← lift (getitem_column "scan_type" scan_type
                       (loc df (Series_apply (λ b, bool_decide (b = true)) bad_scans)));
     print (ThereAreIncompleteScans listing)).

Definition test_xnat_subject (xnat_subject : XnatSubject) : M (list Line) unit :=
  let locals :=
    [("xnat_subject", VSubject xnat_subject);
     ("check_duplicate_scans", VFunction "check_duplicate_scans");
     ("check_incomplete_scans", VFunction "check_incomplete_scans")] in
  x ← lift (load_name locals "x");
  label ← lift (getattr_subject x);
  print (OutputLogFor label);;
  check_duplicate_scans xnat_subject;;
  check_incomplete_scans xnat_subject.

(** ** An XNAT server in memory

    The server holds sessions and scans, each scan filed under the label of
    its session; it refuses to set attributes of the scans in [locked]. *)

Record Server : Type := mkServer {
  srv_sessions : list Session;
  srv_scans : list (string * Scan)
}.

Definition retype (c : SetCall) (entry : string * Scan) : string * Scan :=
  if bool_decide (ID entry.2 = call_obj c ∧ call_attr c = "scan_type")
  then (entry.1, mkScan (ID entry.2) (series_description entry.2) (call_value c))
  else entry.

Definition Server_interface (locked : list string) : Interface Server := {|
  list_sessions w _ _ := srv_sessions w;
  list_scans w _ _ label := map snd (filter (λ e, e.1 = label) (srv_scans w));
  attrs_set c w :=
    if bool_decide (call_obj c ∈ locked)
    then (Raise (RemoteError "the server refused the set call"), w)
    else (Ok (), mkServer (srv_sessions w) (map (retype c) (srv_scans w)))
|}.

(** ** What the specification asks for, in its own words *)

(** The rename index: the rules of the table whose project is the key,
    keyed by (series description, scan type); a later rule wins. *)
Definition spec_rename_index (rules : list RenameRule) (key : string)
    : gmap (string * string) string :=
  foldl (λ index rule,
           <[(rule_series_description rule, rule_scan_type rule)
               := updated_scan_type rule]> index)
        ∅ (filter (λ rule, rule_project rule = key) rules).

Definition lower_ascii (c : Ascii.ascii) : Ascii.ascii :=
  let n := Ascii.nat_of_ascii c in
  if (65 <=? n) && (n <=? 90) then Ascii.ascii_of_nat (n + 32) else c.

Fixpoint lower (s : string) : string :=
  match s with
  | EmptyString => EmptyString
  | String c s' => String (lower_ascii c) (lower s')
  end.

(** A scan type is marked when it contains one of the markers, letter case
    set aside. *)
Definition spec_marked (markers : list string) (ty : string) : bool :=
  existsb (λ m, str_in (lower m) (lower ty)) markers.

(** The set calls the rows matched by an index ask for, in row order. *)
Definition rename_calls (rename_dict : gmap (string * string) string)
    (rs : list (nat * Scan)) : list SetCall :=
  omap (λ row, mkSetCall (ID row.2) "scan_type"
                 <$> rename_dict !! (series_description row.2, scan_type row.2)) rs.

(** Every row matched by the index had its set call issued. *)
Definition commits_attempted {World : Type} (rename_dict : gmap (string * string) string)
    (before after : Run World) : Prop :=
  ∀ row new_type,
    row ∈ rows (scan_df (self before)) →
    rename_dict !! (series_description row.2, scan_type row.2) = Some new_type →
    mkSetCall (ID row.2) "scan_type" new_type ∈ calls (server after).

(** Every row matched by the index carries its new type in the snapshot. *)
Definition snapshot_mirrors {World : Type} (rename_dict : gmap (string * string) string)
    (before after : Run World) : Prop :=
  ∀ k row new_type,
    rows (scan_df (self before)) !! k = Some row →
    rename_dict !! (series_description row.2, scan_type row.2) = Some new_type →
    ∃ row', rows (scan_df (self after)) !! k = Some row' ∧ scan_type row'.2 = new_type.

(** A pass that issued no set call and changed nothing in the object. *)
Definition pass_idle {World : Type} (before after : Run World) : Prop :=
  calls (server after) = calls (server before) ∧ self after = self before.

(** The rows a line of output lists. *)
Definition listing_of (l : Line) : Series string :=
  match l with
  | ThereAreDuplicateScans listing | ThereAreIncompleteScans listing => listing
  | _ => []
  end.

(** Every row whose scan type another row has as well is listed. *)
Definition lists_every_duplicated_row (scans : list Scan) (out : list Line) : Prop :=
  ∀ k j s s',
    scans !! k = Some s → scans !! j = Some s' → k ≠ j → scan_type s = scan_type s' →
    ∃ line, line ∈ out ∧ (k, scan_type s) ∈ listing_of line.

(** ** The rows the duplicate check selects

    The listing of [duplicates] for scans labelled from [i] on, when the
    scan types in [seen] came before them. *)
Definition later_rows_from (i : nat) (seen : list string) (scans : list Scan)
    : Series string :=
  column_values scan_type
    (loc (mkDataFrame (keys Scan) (enumerate_from i scans))
         (duplicated_from seen (map (λ ir, (ir.1, scan_type ir.2)) (enumerate_from i scans)))).

(** How often a scan type occurs. *)
Definition occurrences (v : string) (types : list string) : nat :=
  length (filter (λ t, t = v) types).

Definition dup_scans : list Scan :=
  [mkScan "1" "T1" "T1w"; mkScan "2" "T1 repeat" "T1w"; mkScan "3" "T2" "T2w"].

Definition clean_scans : list Scan :=
  [mkScan "1" "T1" "T1w"; mkScan "2" "T2" "T2w"].

(** ** Sample data

    A subject of project LD4 with one session, on a server that holds the
    given scans; a rule table with two rules of LD4 and one of RC3. *)

Definition sample_session : Session :=
  mkSession "XNAT_E00001" "LD4001_v1" "2019-03-01" "XNAT_S00001".

Definition sample_server (scans : list Scan) : Server :=
  mkServer [sample_session] (map (pair "LD4001_v1") scans).

Definition sample_subject (scans : list Scan) : XnatSubject :=
  {| subject := "LD4001_v1";
     database := "CUTTING";
     meta := {| project := "LD4";
                nsessions := 1;
                session_date := ["2019-03-01"];
                session_id := ["XNAT_E00001"];
                session_label := ["LD4001_v1"];
                subject_id := ["XNAT_S00001"] |};
     session_df := DataFrame_of [sample_session];
     scan_df := DataFrame_of scans |}.

Definition sample_rules : list RenameRule :=
  [mkRenameRule "LD4" "T1" "raw" "T1w";
   mkRenameRule "LD4" "T2" "raw" "T2w";
   mkRenameRule "RC3" "T1" "raw" "X"].

Definition sample_index : gmap (string * string) string :=
  <[("T2", "raw") := "T2w"]> (<[("T1", "raw") := "T1w"]> ∅).

Definition raw_scans : list Scan :=
  [mkScan "1" "T1" "raw"; mkScan "2" "T2" "raw"].

(** The sample subject with its two raw scans, before any set call. *)
Definition sample_run : Run Server :=
  mkRun (mkRemote (sample_server raw_scans) []) (sample_subject raw_scans).

(** * Properties *)

(** ** Loading the metadata *)

Section Loading.
Context {World : Type} `{Interface World}.

(** The frame of a list of dictionaries has one row per dictionary. *)
Lemma enumerate_from_length {A} (xs : list A) i :
  length (enumerate_from i xs) = length xs.
Proof. revert i; induction xs as [|x xs IH]; intros i; simpl; [done|]. by rewrite IH. Qed.

Lemma DataFrame_of_length {R} `{Keys R} (data : list R) :
  length (rows (DataFrame_of data)) = length data.
Proof. apply enumerate_from_length. Qed.

(** What [get_metadata] does, by the number of sessions listed. *)
Lemma get_metadata_cases (label db : string) (r : Remote World) :
  (length (list_sessions (world r) db label) = 1 ∧
     ∃ s, get_metadata label db r = (Ok s, r)
          ∧ subject s = label ∧ database s = db
          ∧ project (meta s) = String.substring 0 3 label
          ∧ session_df s = DataFrame_of (list_sessions (world r) db label)
          ∧ nsessions (meta s) = 1)
  ∨ (length (list_sessions (world r) db label) ≠ 1 ∧
     get_metadata label db r = (Raise too_many_sessions, r)).
Proof.
  unfold get_metadata, mbind, M_bind, bind, get.
  destruct (list_sessions (world r) db label) as [|s [|s' l]] eqn:E; simpl.
  - right. split; [lia|done].
  - left. split; [done|]. eexists. split; [reflexivity|]. done.
  - right. split; [lia|done].
Qed.

(** C1: a subject whose session listing has exactly one session is
    loaded, and the loaded object has exactly one session record; with
    no session or with two or more the load raises the too-many-sessions
    error, and it raises that error in no other case. *)
Theorem get_metadata_one_session_iff (label db : string) (r : Remote World) :
  (length (list_sessions (world r) db label) = 1 ↔
     ∃ s, get_metadata label db r = (Ok s, r)
          ∧ length (rows (session_df s)) = 1
          ∧ nsessions (meta s) = 1)
  ∧ (length (list_sessions (world r) db label) ≠ 1 ↔
     get_metadata label db r = (Raise too_many_sessions, r)).
Proof.
  destruct (get_metadata_cases label db r)
    as [[Hone (s & Hs & _ & _ & _ & Hdf & Hn)] | [Hne Hraise]].
  - split; split.
    + intros _. exists s. repeat split; [done| |done].
      by rewrite Hdf, DataFrame_of_length.
    + done.
    + done.
    + rewrite Hs. discriminate.
  - split; split.
    + done.
    + intros (s & Hs & _). rewrite Hraise in Hs. discriminate.
    + done.
    + done.
Qed.

(** The constructor is the load. *)
Lemma XnatSubject_init_get_metadata (label db : string) :
  XnatSubject_init label db = get_metadata (World:=World) label db.
Proof. reflexivity. Qed.

End Loading.

(** The sample subject is what the constructor loads from the sample server. *)
Lemma sample_subject_loaded scans locked :
  @XnatSubject_init Server (Server_interface locked) "LD4001_v1" "CUTTING"
    (mkRemote (sample_server scans) [])
  = (Ok (sample_subject scans), mkRemote (sample_server scans) []).
Proof.
  unfold XnatSubject_init, get_metadata, mbind, M_bind, bind, get. simpl.
  assert (map snd (filter (λ e : string * Scan, e.1 = "LD4001_v1")
                       (map (pair "LD4001_v1") scans)) = scans) as ->; [|done].
  induction scans as [|sc scans IH]; [done|].
  cbn [map]. rewrite filter_cons_True by done. cbn [map snd]. by rewrite IH.
Qed.

(** ** The rename index *)

Lemma has_column_nonempty {R} name (df : DataFrame R) :
  has_column name df = true → ∃ c cs, columns df = c :: cs.
Proof.
  unfold has_column. intros Hin%bool_decide_eq_true.
  destruct (columns df) as [|c cs]; [by apply elem_of_nil in Hin|eauto].
Qed.

(** No column label gets through the body of the loop: it is not a pair,
    or its second character has no attribute [updated_scan_type]. *)
Lemma rename_step_raises (item : string) (rename_dict : gmap (string * string) string) :
  ∃ e, rename_step item rename_dict = (Raise e, rename_dict).
Proof.
  unfold rename_step, mbind, M_bind, bind, lift.
  destruct item as [|a [|b [|c item]]]; simpl; eauto.
Qed.

(** [get_scan_rename_dict] returns for no table and no subject. *)
Lemma get_scan_rename_dict_raises (df : DataFrame RenameRule) (this : XnatSubject) :
  ∃ e, get_scan_rename_dict df this = Raise e.
Proof.
  unfold get_scan_rename_dict, getattr_column.
  destruct (has_column "project" df) eqn:Hcol; simpl; [|eauto].
  destruct (has_column_nonempty _ _ Hcol) as (c & cs & Hcs).
  unfold iter_frame, loc. simpl. rewrite Hcs. simpl. unfold bind at 1.
  destruct (rename_step_raises c ∅) as [e ->]. eauto.
Qed.

(** C2 (the code departs from it): on the table of the example and a subject
    of project LD4 the specification asks for the index with the two rules
    of LD4, and [get_scan_rename_dict] raises while it unpacks the first
    column label. *)
Theorem get_scan_rename_dict_sample :
  spec_rename_index sample_rules "LD4" = sample_index
  ∧ project (meta (sample_subject raw_scans)) = "LD4"
  ∧ get_scan_rename_dict (DataFrame_of sample_rules) (sample_subject raw_scans)
    = Raise (ValueError "too many values to unpack (expected 2)").
Proof. repeat split; vm_compute; reflexivity. Qed.

(** ** The quality checker *)

(** C9 (the code departs from it): [test_xnat_subject] reads the name [x],
    which nothing binds, so for every subject it raises [NameError] before
    it prints a line or runs a check. *)
Theorem test_xnat_subject_NameError (xnat_subject : XnatSubject) (out : list Line) :
  test_xnat_subject xnat_subject out = (Raise (NameError "x"), out).
Proof. reflexivity. Qed.

(** ** Matching the scans against a rename index *)

Section Matching.
Context {World : Type} `{Interface World}.
Implicit Types (rename_dict : gmap (string * string) string).
Implicit Types (st : Run World) (rs : list (nat * Scan)).

Lemma for_each_app {S A} (xs ys : list A) (body : A → M S unit) (s : S) :
  for_each (xs ++ ys) body s =
  match for_each xs body s with
  | (Ok _, s') => for_each ys body s'
  | (Raise e, s') => (Raise e, s')
  end.
Proof.
  revert s; induction xs as [|x xs IH]; intros s; simpl; [done|].
  unfold bind. destruct (body x s) as [[[]|e] s']; [apply IH|done].
Qed.

(** A matched row with [overwrite] on: the call is issued and its outcome
    is the outcome of the row. *)
Lemma match_row_matched rename_dict row new_type st :
  rename_dict !! (series_description row.2, scan_type row.2) = Some new_type →
  match_row rename_dict true row st =
  ((attrs_set (mkSetCall (ID row.2) "scan_type" new_type) (world (server st))).1,
   mkRun (mkRemote
            (attrs_set (mkSetCall (ID row.2) "scan_type" new_type) (world (server st))).2
            (calls (server st) ++ [mkSetCall (ID row.2) "scan_type" new_type]))
         (self st)).
Proof.
  intros Hkey. unfold match_row. rewrite Hkey.
  unfold on_server, select_attrs_set. simpl.
  by destruct (attrs_set _ _).
Qed.

Lemma match_row_unmatched rename_dict overwrite row st :
  rename_dict !! (series_description row.2, scan_type row.2) = None →
  match_row rename_dict overwrite row st = (Ok (), st).
Proof. intros Hkey. unfold match_row. by rewrite Hkey. Qed.

Lemma match_row_dry rename_dict row st :
  match_row rename_dict false row st = (Ok (), st).
Proof. unfold match_row. by destruct (rename_dict !! _). Qed.

(** No row changes the object: [self.scan_df] is only read. *)
Lemma match_row_self rename_dict overwrite row st :
  self (match_row rename_dict overwrite row st).2 = self st.
Proof.
  destruct overwrite; [|by rewrite match_row_dry].
  destruct (rename_dict !! (series_description row.2, scan_type row.2))
    as [new_type|] eqn:Hkey.
  - by rewrite (match_row_matched _ _ _ _ Hkey).
  - by rewrite match_row_unmatched.
Qed.

Lemma match_rows_self rename_dict overwrite rs st :
  self (for_each rs (match_row rename_dict overwrite) st).2 = self st.
Proof.
  revert st; induction rs as [|row rs IH]; intros st; simpl; [done|].
  unfold bind. pose proof (match_row_self rename_dict overwrite row st) as Hrow.
  destruct (match_row rename_dict overwrite row st) as [[[]|e] st']; simpl in *;
    [by rewrite IH|done].
Qed.

Lemma match_scans_self rename_dict overwrite st :
  self (match_scans rename_dict overwrite st).2 = self st.
Proof. apply match_rows_self. Qed.

Lemma match_rows_dry rename_dict rs st :
  for_each rs (match_row rename_dict false) st = (Ok (), st).
Proof.
  induction rs as [|row rs IH]; simpl; [done|].
  unfold bind. by rewrite match_row_dry.
Qed.

(** The calls of a pass are the earlier calls and then some more. *)
Lemma match_rows_calls_prefix rename_dict overwrite rs st :
  ∃ more, calls (server (for_each rs (match_row rename_dict overwrite) st).2)
          = calls (server st) ++ more.
Proof.
  destruct overwrite; [|exists []; by rewrite match_rows_dry, app_nil_r].
  revert st; induction rs as [|row rs IH]; intros st; simpl.
  - exists []. by rewrite app_nil_r.
  - unfold bind.
    destruct (rename_dict !! (series_description row.2, scan_type row.2))
      as [new_type|] eqn:Hkey.
    + rewrite (match_row_matched _ _ _ _ Hkey).
      destruct (attrs_set _ _) as [[[]|e] w]; simpl.
      * edestruct IH as [more ->]. simpl. rewrite <-app_assoc. eauto.
      * eauto.
    + rewrite match_row_unmatched by done. apply IH.
Qed.

(** When no set call raises, a pass with [overwrite] on goes through all
    the rows and issues the calls of the matched ones, in row order. *)
Lemma match_rows_overwrite rename_dict rs st :
  (∀ c w, (attrs_set c w).1 = Ok ()) →
  ∃ st', for_each rs (match_row rename_dict true) st = (Ok (), st')
         ∧ self st' = self st
         ∧ calls (server st') = calls (server st) ++ rename_calls rename_dict rs.
Proof.
  intros Hset. revert st; induction rs as [|row rs IH]; intros st; simpl.
  - exists st. by rewrite app_nil_r.
  - unfold bind, rename_calls. simpl.
    destruct (rename_dict !! (series_description row.2, scan_type row.2))
      as [new_type|] eqn:Hkey; simpl.
    + rewrite (match_row_matched _ _ _ _ Hkey), Hset.
      edestruct IH as (st' & -> & Hself & Hcalls).
      exists st'. split; [done|]. split; [done|].
      rewrite Hcalls. simpl. by rewrite <-app_assoc.
    + rewrite match_row_unmatched by done. apply IH.
Qed.

Lemma rename_calls_matched rename_dict rs row new_type :
  row ∈ rs →
  rename_dict !! (series_description row.2, scan_type row.2) = Some new_type →
  mkSetCall (ID row.2) "scan_type" new_type ∈ rename_calls rename_dict rs.
Proof.
  intros Hin Hkey. unfold rename_calls. apply list_elem_of_omap.
  exists row. split; [done|]. by rewrite Hkey.
Qed.

(** C3 (amended): with [overwrite] on and no set call raising, the loop
    of the matcher issues, for each scan whose (series description, scan
    type) pair is a key of the index, the call that sets the scan type of
    that scan to the value of the rule, in row order and nothing else; the
    object and with it every scan type of the snapshot stay as they were. *)
Theorem match_scans_overwrite rename_dict st :
  (∀ c w, (attrs_set c w).1 = Ok ()) →
  ∃ st', match_scans rename_dict true st = (Ok (), st')
         ∧ commits_attempted rename_dict st st'
         ∧ calls (server st')
           = calls (server st) ++ rename_calls rename_dict (rows (scan_df (self st)))
         ∧ self st' = self st.
Proof.
  intros Hset.
  destruct (match_rows_overwrite rename_dict (rows (scan_df (self st))) st Hset)
    as (st' & Hrun & Hself & Hcalls).
  exists st'. split; [exact Hrun|]. split; [|done].
  intros row new_type Hin Hkey. rewrite Hcalls.
  apply elem_of_app. right. by apply rename_calls_matched.
Qed.

(** C4 (amended): two passes in a row with [overwrite] on, no set call
    raising: neither pass changes the object, so the second pass matches
    the scans the first one matched and issues the same calls once more. *)
Theorem match_scans_twice rename_dict st :
  (∀ c w, (attrs_set c w).1 = Ok ()) →
  ∃ st1 st2,
    match_scans rename_dict true st = (Ok (), st1)
    ∧ match_scans rename_dict true st1 = (Ok (), st2)
    ∧ self st1 = self st ∧ self st2 = self st
    ∧ calls (server st1)
      = calls (server st) ++ rename_calls rename_dict (rows (scan_df (self st)))
    ∧ calls (server st2)
      = calls (server st1) ++ rename_calls rename_dict (rows (scan_df (self st))).
Proof.
  intros Hset.
  destruct (match_rows_overwrite rename_dict (rows (scan_df (self st))) st Hset)
    as (st1 & Hrun1 & Hself1 & Hcalls1).
  destruct (match_rows_overwrite rename_dict (rows (scan_df (self st1))) st1 Hset)
    as (st2 & Hrun2 & Hself2 & Hcalls2).
  exists st1, st2. rewrite Hself1 in Hcalls2.
  repeat split; try done. congruence.
Qed.

(** X4: as the method is written, [match_scan_types] raises for every
    rule table and either value of [overwrite]: building the index raises
    first, so the loop is never reached, no set call is issued and the
    server and the object stay as they were. *)
Lemma match_scan_types_raises (df : DataFrame RenameRule) overwrite st :
  ∃ e, match_scan_types df overwrite st = (Raise e, st).
Proof.
  unfold match_scan_types, mbind, M_bind, bind, get, lift.
  destruct (get_scan_rename_dict_raises df (self st)) as [e ->]. eauto.
Qed.

(** C5: with [overwrite] off the loop of the matcher issues no set call
    and leaves the server and the object as they were, whatever the index
    and however many scans it matches; so does the whole method, whatever
    the rule table. *)
Theorem match_scan_types_dry_run rename_dict (df : DataFrame RenameRule) st :
  match_scans rename_dict false st = (Ok (), st)
  ∧ (match_scan_types df false st).2 = st.
Proof.
  split; [apply match_rows_dry|].
  unfold match_scan_types, mbind, M_bind, bind, get, lift.
  destruct (get_scan_rename_dict df (self st)) as [d|e]; [|done].
  change (match_scans d false st) with
    (for_each (rows (scan_df (self st))) (match_row d false) st).
  by rewrite match_rows_dry.
Qed.

(** C8 (amended): with [overwrite] on, when the set call of a matched
    scan raises, the exception leaves the loop: the run ends with it, the
    last call issued is the one that raised, and no later row is looked
    at. *)
Theorem match_scans_failure_aborts rename_dict st pre row post new_type st1 e w :
  rows (scan_df (self st)) = pre ++ row :: post →
  for_each pre (match_row rename_dict true) st = (Ok (), st1) →
  rename_dict !! (series_description row.2, scan_type row.2) = Some new_type →
  attrs_set (mkSetCall (ID row.2) "scan_type" new_type) (world (server st1))
    = (Raise e, w) →
  match_scans rename_dict true st =
  (Raise e,
   mkRun (mkRemote w (calls (server st1) ++ [mkSetCall (ID row.2) "scan_type" new_type]))
         (self st)).
Proof.
  intros Hrows Hpre Hkey Hset.
  change (match_scans rename_dict true st) with
    (for_each (rows (scan_df (self st))) (match_row rename_dict true) st).
  rewrite Hrows, for_each_app, Hpre. simpl. unfold bind.
  rewrite (match_row_matched _ _ _ _ Hkey), Hset. simpl.
  pose proof (match_rows_self rename_dict true pre st) as Hself.
  rewrite Hpre in Hself. simpl in Hself. by rewrite Hself.
Qed.

End Matching.

(** *** The matcher on the sample subject *)

Lemma match_scans_overwrite_sample :
  ∃ st', @match_scans Server (Server_interface []) sample_index true sample_run
         = (Ok (), st')
         ∧ commits_attempted sample_index sample_run st'
         ∧ calls (server st')
           = calls (server sample_run)
             ++ rename_calls sample_index (rows (scan_df (self sample_run)))
         ∧ self st' = self sample_run.
Proof.
  apply (@match_scans_overwrite Server (Server_interface [])).
  intros c w. reflexivity.
Defined.

(** C3 (as stated, refuted): both scans of the sample subject match the
    index and both set calls are issued, but row 0 of the snapshot still has
    the scan type "raw" after the pass, not "T1w". *)
Lemma match_scans_snapshot_not_mirrored :
  ¬ (commits_attempted sample_index sample_run
       (@match_scans Server (Server_interface []) sample_index true sample_run).2
     ∧ snapshot_mirrors sample_index sample_run
       (@match_scans Server (Server_interface []) sample_index true sample_run).2).
Proof.
  intros [_ Hmirror].
  destruct (Hmirror 0 (0, mkScan "1" "T1" "raw") "T1w" eq_refl eq_refl)
    as (row' & Hrow & Hty).
  vm_compute in Hrow. injection Hrow as <-. discriminate Hty.
Qed.

Lemma match_scans_twice_sample :
  ∃ st1 st2,
    @match_scans Server (Server_interface []) sample_index true sample_run = (Ok (), st1)
    ∧ @match_scans Server (Server_interface []) sample_index true st1 = (Ok (), st2)
    ∧ self st1 = self sample_run ∧ self st2 = self sample_run
    ∧ calls (server st1)
      = calls (server sample_run)
        ++ rename_calls sample_index (rows (scan_df (self sample_run)))
    ∧ calls (server st2)
      = calls (server st1)
        ++ rename_calls sample_index (rows (scan_df (self sample_run))).
Proof.
  apply (@match_scans_twice Server (Server_interface [])).
  intros c w. reflexivity.
Defined.

(** C4 (as stated, refuted): on the sample subject the second pass is not
    idle, it issues the two set calls of the first pass again. *)
Lemma match_scans_second_pass_not_idle :
  ¬ pass_idle
      (@match_scans Server (Server_interface []) sample_index true sample_run).2
      (@match_scans Server (Server_interface []) sample_index true
         (@match_scans Server (Server_interface []) sample_index true sample_run).2).2.
Proof. intros [Hcalls _]. vm_compute in Hcalls. discriminate Hcalls. Qed.

Lemma match_scans_failure_aborts_sample :
  @match_scans Server (Server_interface ["1"]) sample_index true sample_run =
  (Raise (RemoteError "the server refused the set call"),
   mkRun (mkRemote (sample_server raw_scans) [mkSetCall "1" "scan_type" "T1w"])
         (sample_subject raw_scans)).
Proof.
  apply (@match_scans_failure_aborts Server (Server_interface ["1"])
           sample_index sample_run [] (0, mkScan "1" "T1" "raw")
           [(1, mkScan "2" "T2" "raw")] "T1w" sample_run).
  - reflexivity.
  - reflexivity.
  - reflexivity.
  - reflexivity.
Defined.

(** C8 (as stated, refuted): the server refuses the set call for scan "1";
    scan "2" matches the index as well, and its set call is never issued. *)
Lemma match_scans_failure_skips_later_scans :
  ¬ commits_attempted sample_index sample_run
      (@match_scans Server (Server_interface ["1"]) sample_index true sample_run).2.
Proof.
  intros Hall.
  specialize (Hall (1, mkScan "2" "T2" "raw") "T2w").
  assert (mkSetCall "2" "scan_type" "T2w" ∈ [mkSetCall "1" "scan_type" "T1w"]) as Hin.
  { apply Hall; [|reflexivity]. vm_compute. apply list_elem_of_further, list_elem_of_here. }
  apply list_elem_of_singleton in Hin. discriminate Hin.
Qed.

(** ** The duplicate check *)

Lemma later_rows_from_cons i seen s scans :
  later_rows_from i seen (s :: scans) =
  (if bool_decide (scan_type s ∈ seen) then [(i, scan_type s)] else [])
  ++ later_rows_from (S i) (scan_type s :: seen) scans.
Proof.
  unfold later_rows_from, column_values, loc. simpl.
  by destruct (bool_decide (scan_type s ∈ seen)).
Qed.

(** A row is listed exactly when its scan type was seen before it. *)
Lemma later_rows_from_elem scans i seen k v :
  (k, v) ∈ later_rows_from i seen scans ↔
  ∃ j, k = i + j ∧ map scan_type scans !! j = Some v
       ∧ (v ∈ seen ∨ v ∈ take j (map scan_type scans)).
Proof.
  revert i seen; induction scans as [|s scans IH]; intros i seen.
  - split; [by intros ?%elem_of_nil|by intros (j & _ & ? & _)].
  - rewrite later_rows_from_cons, elem_of_app, IH. split.
    + intros [Hhead | (j & -> & Hj & Hseen)].
      * destruct (bool_decide (scan_type s ∈ seen)) eqn:Hdec;
          [|by apply elem_of_nil in Hhead].
        apply list_elem_of_singleton in Hhead. injection Hhead as -> ->.
        apply bool_decide_eq_true in Hdec.
        exists 0. split; [lia|]. split; [done|]. by left.
      * exists (S j). split; [lia|]. split; [done|].
        destruct Hseen as [[->|Hseen]%elem_of_cons | Htake].
        -- right. simpl. apply elem_of_cons. by left.
        -- by left.
        -- right. simpl. apply elem_of_cons. by right.
    + intros (j & -> & Hj & Hseen). destruct j as [|j].
      * left. simpl in Hj. injection Hj as <-.
        destruct Hseen as [Hseen | Htake]; [|by apply elem_of_nil in Htake].
        rewrite bool_decide_eq_true_2 by done.
        replace (i + 0) with i by lia. apply list_elem_of_here.
      * right. exists j. split; [lia|]. split; [done|].
        destruct Hseen as [Hseen | [->|Htake]%elem_of_cons].
        -- left. apply elem_of_cons. by right.
        -- left. apply elem_of_cons. by left.
        -- by right.
Qed.

(** A scan type seen before has all its rows listed, another one all but
    its first row. *)
Lemma later_rows_from_count scans i seen v :
  length (filter (λ r, r.2 = v) (later_rows_from i seen scans)) =
  if bool_decide (v ∈ seen) then occurrences v (map scan_type scans)
  else occurrences v (map scan_type scans) - 1.
Proof.
  unfold occurrences.
  revert i seen; induction scans as [|s scans IH]; intros i seen.
  - by destruct (bool_decide (v ∈ seen)).
  - rewrite later_rows_from_cons, filter_app, length_app, IH. cbn [map].
    rewrite (filter_cons (λ t, t = v)).
    destruct (decide (scan_type s = v)) as [->|Hne].
    + rewrite (bool_decide_eq_true_2 (v ∈ v :: seen)) by apply list_elem_of_here.
      destruct (bool_decide (v ∈ seen)); simpl; [|lia].
      rewrite filter_cons_True by done. simpl. lia.
    + assert (bool_decide (v ∈ scan_type s :: seen) = bool_decide (v ∈ seen)) as ->.
      { apply bool_decide_ext. rewrite elem_of_cons. intuition congruence. }
      destruct (bool_decide (scan_type s ∈ seen)); simpl.
      * rewrite filter_cons_False by done. simpl. done.
      * done.
Qed.

(** Nothing is listed exactly when no scan type was seen before and none
    repeats. *)
Lemma later_rows_from_nil scans i seen :
  later_rows_from i seen scans = [] ↔
  (∀ v, v ∈ map scan_type scans → v ∉ seen) ∧ NoDup (map scan_type scans).
Proof.
  revert i seen; induction scans as [|s scans IH]; intros i seen.
  - split; [|done]. intros _. split; [by intros v ?%elem_of_nil|constructor].
  - rewrite later_rows_from_cons. cbn [map]. rewrite NoDup_cons. split.
    + intros [Hhead Htail]%app_eq_nil. apply IH in Htail as [Hseen Hnodup].
      destruct (bool_decide (scan_type s ∈ seen)) eqn:Hdec; [done|].
      apply bool_decide_eq_false in Hdec.
      split; [|split; [|done]].
      * intros v [->|Hv]%elem_of_cons; [done|].
        intros Hin. apply (Hseen v Hv). apply elem_of_cons. by right.
      * intros Hin. apply (Hseen _ Hin). apply list_elem_of_here.
    + intros (Hseen & Hfresh & Hnodup).
      rewrite bool_decide_eq_false_2 by (apply Hseen, list_elem_of_here).
      simpl. apply IH. split; [|done].
      intros v Hv [->|Hin]%elem_of_cons; [done|].
      apply (Hseen v); [|done]. apply elem_of_cons. by right.
Qed.

(** The run of the duplicate check on a subject with at least one scan:
    it raises nothing and prints one line. *)
Lemma check_duplicate_scans_run xnat_subject scans out :
  scan_df xnat_subject = DataFrame_of scans → scans ≠ [] →
  check_duplicate_scans xnat_subject out =
  (Ok (), out ++ [if bool_decide (later_rows_from 0 [] scans = [])
                  then NoDuplicateScanTypes
                  else ThereAreDuplicateScans (later_rows_from 0 [] scans)]).
Proof.
  intros Hdf Hne. destruct scans as [|s scans]; [done|].
  unfold check_duplicate_scans. rewrite Hdf.
  change (DataFrame_of (s :: scans))
    with (mkDataFrame (keys Scan) (enumerate_from 0 (s :: scans))).
  unfold getattr_column.
  change (has_column "scan_type" (mkDataFrame (keys Scan) (enumerate_from 0 (s :: scans))))
    with true.
  cbv beta iota. unfold mbind, M_bind, bind, lift, Series_duplicated.
  change (column_values scan_type
            (mkDataFrame (keys Scan) (enumerate_from 0 (s :: scans))))
    with (map (λ ir : nat * Scan, (ir.1, scan_type ir.2)) (enumerate_from 0 (s :: scans))).
  set (duplicates := loc _ _).
  assert (later_rows_from 0 [] (s :: scans) = column_values scan_type duplicates) as Hrows
    by reflexivity.
  rewrite Hrows. unfold try_except, py_assert, getitem_column.
  change (has_column "scan_type" duplicates) with true. cbv beta iota.
  unfold column_values. destruct (rows duplicates) as [|r rs]; reflexivity.
Qed.

(** What the line printed by the duplicate check lists. *)
Lemma check_duplicate_scans_line xnat_subject scans out :
  scan_df xnat_subject = DataFrame_of scans → scans ≠ [] →
  ∃ line, check_duplicate_scans xnat_subject out = (Ok (), out ++ [line])
          ∧ listing_of line = later_rows_from 0 [] scans
          ∧ (line = NoDuplicateScanTypes ↔ later_rows_from 0 [] scans = []).
Proof.
  intros Hdf Hne. eexists. split; [by apply check_duplicate_scans_run|].
  destruct (bool_decide (later_rows_from 0 [] scans = [])) eqn:Hdec.
  - apply bool_decide_eq_true in Hdec. by rewrite Hdec.
  - apply bool_decide_eq_false in Hdec. split; [done|]. split; [discriminate|done].
Qed.

(** C6 (amended): on a subject with at least one scan the duplicate check
    raises nothing and prints one line; it passes exactly when no scan type
    repeats; every scan type that occurs more than once has a row in the
    listing; and the listing has exactly the rows whose scan type occurs in
    an earlier row, so the first row of a repeated scan type is left out. *)
Theorem check_duplicate_scans_verdict xnat_subject scans out :
  scan_df xnat_subject = DataFrame_of scans → scans ≠ [] →
  ∃ line, check_duplicate_scans xnat_subject out = (Ok (), out ++ [line])
    ∧ (line = NoDuplicateScanTypes ↔ NoDup (map scan_type scans))
    ∧ (∀ v, 1 < occurrences v (map scan_type scans) → ∃ k, (k, v) ∈ listing_of line)
    ∧ (∀ k v, (k, v) ∈ listing_of line ↔
         map scan_type scans !! k = Some v ∧ v ∈ take k (map scan_type scans)).
Proof.
  intros Hdf Hne.
  destruct (check_duplicate_scans_line xnat_subject scans out Hdf Hne)
    as (line & Hrun & Hlist & Hpass).
  exists line. split; [done|]. rewrite Hlist. split; [|split].
  - rewrite Hpass, later_rows_from_nil. split; [by intros [_ ?]|].
    intros Hnodup. split; [|done]. intros v _. apply not_elem_of_nil.
  - intros v Hocc.
    pose proof (later_rows_from_count scans 0 [] v) as Hcount.
    rewrite bool_decide_eq_false_2 in Hcount by apply not_elem_of_nil.
    destruct (filter (λ r : nat * string, r.2 = v) (later_rows_from 0 [] scans))
      as [|[k w] rest] eqn:Hfilter; [simpl in Hcount; lia|].
    assert ((k, w) ∈ filter (λ r : nat * string, r.2 = v) (later_rows_from 0 [] scans))
      as [Hw Hin]%list_elem_of_filter by (rewrite Hfilter; apply list_elem_of_here).
    simpl in Hw. subst w. by exists k.
  - intros k v. rewrite later_rows_from_elem. split.
    + intros (j & -> & Hj & [Hseen|Htake]); [by apply elem_of_nil in Hseen|done].
    + intros [Hk Htake]. exists k. split; [done|]. split; [done|by right].
Qed.

(** C10: a scan type that occurs [n] times has exactly [n - 1] rows in the
    listing of the duplicate check, and the first row that has it is not
    one of them. *)
Theorem check_duplicate_scans_later_occurrences xnat_subject scans out v :
  scan_df xnat_subject = DataFrame_of scans → v ∈ map scan_type scans →
  ∃ line, check_duplicate_scans xnat_subject out = (Ok (), out ++ [line])
    ∧ length (filter (λ r, r.2 = v) (listing_of line))
      = occurrences v (map scan_type scans) - 1
    ∧ (∀ k, map scan_type scans !! k = Some v → v ∉ take k (map scan_type scans) →
            k ∉ (listing_of line).*1).
Proof.
  intros Hdf Hv.
  assert (scans ≠ []) as Hne by (intros ->; by apply elem_of_nil in Hv).
  destruct (check_duplicate_scans_line xnat_subject scans out Hdf Hne)
    as (line & Hrun & Hlist & _).
  exists line. split; [done|]. rewrite Hlist. split.
  - rewrite later_rows_from_count.
    by rewrite bool_decide_eq_false_2 by apply not_elem_of_nil.
  - intros k Hk Hfirst [[k' w] [Heq Hin]]%list_elem_of_fmap. simpl in Heq. subst k'.
    apply later_rows_from_elem in Hin as (j & Hkj & Hj & [Hseen|Htake]);
      [by apply elem_of_nil in Hseen|].
    simpl in Hkj. subst j. rewrite Hk in Hj. injection Hj as <-. done.
Qed.

(** *** The duplicate check on the sample scans *)

Example check_duplicate_scans_dup :
  check_duplicate_scans (sample_subject dup_scans) []
  = (Ok (), [ThereAreDuplicateScans [(1, "T1w")]]).
Proof. reflexivity. Qed.

Example check_duplicate_scans_clean :
  check_duplicate_scans (sample_subject clean_scans) [] = (Ok (), [NoDuplicateScanTypes]).
Proof. reflexivity. Qed.

(** A subject without scans has a frame without columns, and the check
    raises on [df.scan_type]. *)
Example check_duplicate_scans_no_scans :
  check_duplicate_scans (sample_subject []) []
  = (Raise (AttributeError "DataFrame" "scan_type"), []).
Proof. reflexivity. Qed.

Lemma check_duplicate_scans_verdict_sample :
  ∃ line, check_duplicate_scans (sample_subject dup_scans) [] = (Ok (), [] ++ [line])
    ∧ (line = NoDuplicateScanTypes ↔ NoDup (map scan_type dup_scans))
    ∧ (∀ v, 1 < occurrences v (map scan_type dup_scans) → ∃ k, (k, v) ∈ listing_of line)
    ∧ (∀ k v, (k, v) ∈ listing_of line ↔
         map scan_type dup_scans !! k = Some v ∧ v ∈ take k (map scan_type dup_scans)).
Proof.
  apply (check_duplicate_scans_verdict (sample_subject dup_scans) dup_scans []).
  - reflexivity.
  - discriminate.
Defined.

Lemma check_duplicate_scans_later_occurrences_sample :
  ∃ line, check_duplicate_scans (sample_subject dup_scans) [] = (Ok (), [] ++ [line])
    ∧ length (filter (λ r, r.2 = "T1w") (listing_of line))
      = occurrences "T1w" (map scan_type dup_scans) - 1
    ∧ (∀ k, map scan_type dup_scans !! k = Some "T1w" →
            "T1w" ∉ take k (map scan_type dup_scans) →
            k ∉ (listing_of line).*1).
Proof.
  apply (check_duplicate_scans_later_occurrences (sample_subject dup_scans) dup_scans [] "T1w").
  - reflexivity.
  - vm_compute. apply list_elem_of_here.
Defined.

(** C6 (as stated, refuted): rows 0 and 1 of the sample both have the scan
    type "T1w"; the check lists row 1 only. *)
Lemma check_duplicate_scans_first_row_not_listed :
  ¬ lists_every_duplicated_row dup_scans
      (check_duplicate_scans (sample_subject dup_scans) []).2.
Proof.
  intros Hall.
  destruct (Hall 0 1 (mkScan "1" "T1" "T1w") (mkScan "2" "T1 repeat" "T1w")
              eq_refl eq_refl ltac:(lia) eq_refl) as (line & Hline & Hrow).
  rewrite check_duplicate_scans_dup in Hline. simpl in Hline.
  apply list_elem_of_singleton in Hline. subst line. simpl in Hrow.
  apply list_elem_of_singleton in Hrow. discriminate Hrow.
Qed.

(** ** The incomplete check *)

Lemma Series_sum_apply {A} (p : A → bool) (col : Series A) :
  Series_sum (Series_apply p col) = length (filter (λ r, p r.2 = true) col).
Proof.
  unfold Series_sum, Series_apply.
  induction col as [|[i a] col IH]; [done|].
  cbn [map]. rewrite !filter_cons. simpl.
  destruct (decide (p a = true)); simpl; by rewrite IH.
Qed.

Lemma select_rows_apply (p : string → bool) (rs : list (nat * Scan)) :
  map (λ ir : nat * Scan, (ir.1, scan_type ir.2))
    (select_rows rs
       (Series_apply (λ b, bool_decide (b = true))
          (Series_apply p (map (λ ir : nat * Scan, (ir.1, scan_type ir.2)) rs))))
  = filter (λ r, p r.2 = true) (map (λ ir : nat * Scan, (ir.1, scan_type ir.2)) rs).
Proof.
  unfold Series_apply.
  induction rs as [|[i sc] rs IH]; [done|].
  cbn [map select_rows fst snd]. rewrite filter_cons. cbn [snd].
  destruct (p (scan_type sc)); simpl; by rewrite IH.
Qed.

(** The run of the incomplete check on a subject with at least one scan:
    it raises nothing and prints one line, which lists the rows whose scan
    type has one of the markers in it, letter for letter. *)
Lemma check_incomplete_scans_run xnat_subject scans out :
  scan_df xnat_subject = DataFrame_of scans → scans ≠ [] →
  check_incomplete_scans xnat_subject out =
  (Ok (),
   out ++ [if bool_decide (filter (λ r, any_bad_string r.2 = true)
                             (column_values scan_type (DataFrame_of scans)) = [])
           then NoIncompleteOrUnusableScans
           else ThereAreIncompleteScans
                  (filter (λ r, any_bad_string r.2 = true)
                     (column_values scan_type (DataFrame_of scans)))]).
Proof.
  intros Hdf Hne. destruct scans as [|s scans]; [done|].
  unfold check_incomplete_scans. rewrite Hdf.
  change (DataFrame_of (s :: scans))
    with (mkDataFrame (keys Scan) (enumerate_from 0 (s :: scans))).
  unfold getattr_column.
  change (has_column "scan_type" (mkDataFrame (keys Scan) (enumerate_from 0 (s :: scans))))
    with true.
  cbv beta iota. unfold mbind, M_bind, bind, lift, try_except, py_assert, getitem_column.
  change (has_column "scan_type" (loc ?df ?mask)) with true.
  cbv beta iota. unfold column_values, loc. cbn [rows columns].
  rewrite select_rows_apply, Series_sum_apply.
  destruct (filter _ _) as [|r rs]; reflexivity.
Qed.

Example check_incomplete_scans_marked :
  check_incomplete_scans (sample_subject [mkScan "1" "T1" "incomplete_scan"]) []
  = (Ok (), [ThereAreIncompleteScans [(0, "incomplete_scan")]]).
Proof. reflexivity. Qed.

Example check_incomplete_scans_clean :
  check_incomplete_scans (sample_subject [mkScan "1" "T1" "T1w"]) []
  = (Ok (), [NoIncompleteOrUnusableScans]).
Proof. reflexivity. Qed.

(** C7 (the code departs from it): the scan type "Incomplete" contains the
    marker "incomplete" when letter case is set aside, so the specification
    has it flagged; the check compares letter for letter, finds no marker
    and reports that there is no incomplete or unusable scan. *)
Theorem check_incomplete_scans_letter_case :
  spec_marked bad_strings "Incomplete" = true
  ∧ any_bad_string "Incomplete" = false
  ∧ check_incomplete_scans (sample_subject [mkScan "1" "T1" "Incomplete"]) []
    = (Ok (), [NoIncompleteOrUnusableScans]).
Proof. repeat split; vm_compute; reflexivity. Qed.

(** * Further properties *)

(** ** The loaded object *)

Section Loaded.
Context {World : Type} `{Interface World}.

(** The object [get_metadata] builds when the listing has one session. *)
Lemma get_metadata_single (label db : string) (r : Remote World) (sess : Session) :
  list_sessions (world r) db label = [sess] →
  get_metadata label db r =
  (Ok {| subject := label;
         database := db;
         meta := {| project := String.substring 0 3 label;
                    nsessions := 1;
                    session_date := [sess_date sess];
                    session_id := [sess_ID sess];
                    session_label := [sess_label sess];
                    subject_id := [sess_subject_ID sess] |};
         session_df := DataFrame_of [sess];
         scan_df := DataFrame_of (list_scans (world r) db label (sess_label sess)) |},
   r).
Proof.
  intros Hone. unfold get_metadata, mbind, M_bind, bind, get. by rewrite Hone.
Qed.


(** X1: when the listing has one session, the scans of the loaded object
    are the scans [list_scans] gives for the label of that session, in the
    order of the listing and indexed from 0, and the session frame has that
    one session; the server is only read. *)
Theorem get_metadata_scans_of_session (label db : string) (r : Remote World) sess :
  list_sessions (world r) db label = [sess] →
  ∃ s, get_metadata label db r = (Ok s, r)
       ∧ rows (session_df s) = [(0, sess)]
       ∧ rows (scan_df s)
         = enumerate_from 0 (list_scans (world r) db label (sess_label sess))
       ∧ scan_df s = DataFrame_of (list_scans (world r) db label (sess_label sess)).
Proof.
  intros Hone. eexists. split; [by apply get_metadata_single|]. done.
Qed.


End Loaded.

Lemma get_metadata_scans_of_session_sample :
  ∃ s, @get_metadata Server (Server_interface []) "LD4001_v1" "CUTTING"
         (mkRemote (sample_server raw_scans) [])
       = (Ok s, mkRemote (sample_server raw_scans) [])
       ∧ rows (session_df s) = [(0, sample_session)]
       ∧ rows (scan_df s)
         = enumerate_from 0
             (@list_scans Server (Server_interface []) (sample_server raw_scans)
                "CUTTING" "LD4001_v1" (sess_label sample_session))
       ∧ scan_df s
         = DataFrame_of
             (@list_scans Server (Server_interface []) (sample_server raw_scans)
                "CUTTING" "LD4001_v1" (sess_label sample_session)).
Proof.
  apply (@get_metadata_scans_of_session Server (Server_interface [])
           "LD4001_v1" "CUTTING" (mkRemote (sample_server raw_scans) []) sample_session).
  reflexivity.
Defined.


(** ** How building the index fails *)


(** A table whose first column is called [id]: the two characters unpack,
    and the attribute access on the second one raises. *)
Example get_scan_rename_dict_two_letter_column :
  get_scan_rename_dict
    (mkDataFrame ["id"; "project"; "series_description"; "scan_type"; "updated_scan_type"]
       (enumerate_from 0 sample_rules))
    (sample_subject raw_scans)
  = Raise (AttributeError "str" "updated_scan_type").
Proof. reflexivity. Qed.

(** ** More on the loop of the matcher *)

Section MatchingMore.
Context {World : Type} `{Interface World}.
Implicit Types (rename_dict : gmap (string * string) string).
Implicit Types (st : Run World) (rs : list (nat * Scan)).

Lemma match_rows_no_match rename_dict overwrite rs st :
  (∀ row, row ∈ rs →
          rename_dict !! (series_description row.2, scan_type row.2) = None) →
  for_each rs (match_row rename_dict overwrite) st = (Ok (), st).
Proof.
  induction rs as [|row rs IH]; intros Hnone; simpl; [done|].
  unfold bind. rewrite match_row_unmatched by (apply Hnone, list_elem_of_here).
  apply IH. intros row' Hin. apply Hnone. by apply list_elem_of_further.
Qed.

(** X5: when no scan of the snapshot has its (series description, scan
    type) pair in the index, the loop returns without a set call, whatever
    [overwrite] is and whatever the server would answer: the server, the
    list of calls and the object are as before. *)
Theorem match_scans_no_match rename_dict overwrite st :
  (∀ row, row ∈ rows (scan_df (self st)) →
          rename_dict !! (series_description row.2, scan_type row.2) = None) →
  match_scans rename_dict overwrite st = (Ok (), st).
Proof. intros Hnone. by apply match_rows_no_match. Qed.

Lemma match_rows_calls_in_order rename_dict rs st :
  ∃ issued,
    calls (server (for_each rs (match_row rename_dict true) st).2)
    = calls (server st) ++ issued
    ∧ issued `prefix_of` rename_calls rename_dict rs
    ∧ ((for_each rs (match_row rename_dict true) st).1 = Ok () →
       issued = rename_calls rename_dict rs).
Proof.
  revert st; induction rs as [|row rs IH]; intros st.
  - exists []. simpl. by rewrite app_nil_r.
  - simpl. unfold bind, rename_calls. simpl.
    destruct (rename_dict !! (series_description row.2, scan_type row.2))
      as [new_type|] eqn:Hkey; simpl.
    + rewrite (match_row_matched _ _ _ _ Hkey).
      destruct (attrs_set _ _) as [[[]|e] w]; simpl.
      * edestruct IH as (issued & -> & Hprefix & Hall). simpl.
        exists (mkSetCall (ID row.2) "scan_type" new_type :: issued).
        rewrite <-app_assoc. split; [done|]. split.
        -- by apply prefix_cons.
        -- intros Hok. by rewrite (Hall Hok).
      * exists [mkSetCall (ID row.2) "scan_type" new_type]. split; [done|]. split.
        -- apply prefix_cons, prefix_nil.
        -- discriminate.
    + rewrite match_row_unmatched by done. apply IH.
Qed.

(** X6: with [overwrite] on and any server, the set calls a pass issues
    are a leading part of the calls of the matched scans, taken in row
    order: no call is issued for a scan that does not match, none is issued
    twice or out of order, and a pass that returns has issued all of them. *)
Theorem match_scans_calls_in_order rename_dict st :
  ∃ issued,
    calls (server (match_scans rename_dict true st).2) = calls (server st) ++ issued
    ∧ issued `prefix_of` rename_calls rename_dict (rows (scan_df (self st)))
    ∧ ((match_scans rename_dict true st).1 = Ok () →
       issued = rename_calls rename_dict (rows (scan_df (self st)))).
Proof. apply match_rows_calls_in_order. Qed.

(** X7: load, then match: for a subject with one session and a server
    that refuses no set call, matching the loaded object with [overwrite]
    on issues exactly the calls of the matched scans of that session, in the
    order [list_scans] gave them. *)
Theorem load_then_match (label db : string) rename_dict (r : Remote World) sess :
  list_sessions (world r) db label = [sess] →
  (∀ c w, (attrs_set c w).1 = Ok ()) →
  ∃ s st',
    XnatSubject_init label db r = (Ok s, r)
    ∧ match_scans rename_dict true (mkRun r s) = (Ok (), st')
    ∧ self st' = s
    ∧ calls (server st')
      = calls r ++ rename_calls rename_dict
                     (enumerate_from 0 (list_scans (world r) db label (sess_label sess))).
Proof.
  intros Hone Hset. eexists.
  edestruct (match_rows_overwrite rename_dict) as (st' & Hrun & Hself & Hcalls);
    [exact Hset|].
  exists st'. split; [by apply get_metadata_single|].
  split; [exact Hrun|]. split; [exact Hself|]. exact Hcalls.
Qed.

End MatchingMore.

Lemma match_scans_no_match_sample :
  @match_scans Server (Server_interface ["1"; "2"]) sample_index true
    (mkRun (mkRemote (sample_server clean_scans) []) (sample_subject clean_scans))
  = (Ok (), mkRun (mkRemote (sample_server clean_scans) []) (sample_subject clean_scans)).
Proof.
  apply (@match_scans_no_match Server (Server_interface ["1"; "2"])).
  intros row Hin. simpl in Hin.
  apply elem_of_cons in Hin as [->|Hin]; [reflexivity|].
  apply list_elem_of_singleton in Hin as ->. reflexivity.
Defined.

Lemma load_then_match_sample :
  ∃ s st',
    @XnatSubject_init Server (Server_interface []) "LD4001_v1" "CUTTING"
      (mkRemote (sample_server raw_scans) [])
    = (Ok s, mkRemote (sample_server raw_scans) [])
    ∧ @match_scans Server (Server_interface []) sample_index true
        (mkRun (mkRemote (sample_server raw_scans) []) s) = (Ok (), st')
    ∧ self st' = s
    ∧ calls (server st')
      = calls (mkRemote (sample_server raw_scans) [])
        ++ rename_calls sample_index
             (enumerate_from 0
                (@list_scans Server (Server_interface []) (sample_server raw_scans)
                   "CUTTING" "LD4001_v1" (sess_label sample_session))).
Proof.
  apply (@load_then_match Server (Server_interface []) "LD4001_v1" "CUTTING"
           sample_index (mkRemote (sample_server raw_scans) []) sample_session).
  - reflexivity.
  - intros c w. reflexivity.
Defined.

(** ** More on the two checks *)

Lemma enumerate_from_elem {A} (xs : list A) (i k : nat) (x : A) :
  (k, x) ∈ enumerate_from i xs ↔ ∃ j, k = i + j ∧ xs !! j = Some x.
Proof.
  revert i; induction xs as [|y xs IH]; intros i; simpl.
  - split; [by intros ?%elem_of_nil|by intros (j & _ & ?)].
  - rewrite elem_of_cons, IH. split.
    + intros [Heq | (j & -> & Hj)].
      * injection Heq as -> ->. exists 0. split; [lia|done].
      * exists (S j). split; [lia|done].
    + intros ([|j] & -> & Hj).
      * left. simpl in Hj. injection Hj as ->. f_equal. lia.
      * right. exists j. split; [lia|done].
Qed.

Lemma enumerate_from_map {A B} (f : A → B) (xs : list A) (i : nat) :
  map (λ ir : nat * A, (ir.1, f ir.2)) (enumerate_from i xs) = enumerate_from i (map f xs).
Proof. revert i; induction xs as [|x xs IH]; intros i; simpl; [done|]. by rewrite IH. Qed.

(** The column of scan types of the frame of a list of scans. *)
Lemma scan_type_column (scans : list Scan) :
  column_values scan_type (DataFrame_of scans) = enumerate_from 0 (map scan_type scans).
Proof. unfold column_values. simpl. apply enumerate_from_map. Qed.

Lemma filter_nil_iff {A} (P : A → Prop) `{!∀ x, Decision (P x)} (l : list A) :
  filter P l = [] ↔ ∀ x, x ∈ l → ¬ P x.
Proof.
  split.
  - intros Hnil x Hin HP. by apply (filter_nil_not_elem_of P l x).
  - intros Hnone. destruct (filter P l) as [|x rest] eqn:Hfilter; [done|].
    assert (x ∈ filter P l) as [HP Hin]%list_elem_of_filter
      by (rewrite Hfilter; apply list_elem_of_here).
    destruct (Hnone x Hin HP).
Qed.

(** X8: on a subject without scans both checks raise [AttributeError]:
    the frame of an empty scan list has no column [scan_type], and the
    column is read outside the [try].  Nothing is printed. *)
Theorem checks_raise_without_scans (xnat_subject : XnatSubject) (out : list Line) :
  scan_df xnat_subject = DataFrame_of [] →
  check_duplicate_scans xnat_subject out
  = (Raise (AttributeError "DataFrame" "scan_type"), out)
  ∧ check_incomplete_scans xnat_subject out
    = (Raise (AttributeError "DataFrame" "scan_type"), out).
Proof.
  intros Hdf. unfold check_duplicate_scans, check_incomplete_scans.
  rewrite Hdf. split; reflexivity.
Qed.

Lemma checks_raise_without_scans_sample :
  check_duplicate_scans (sample_subject []) [NoDuplicateScanTypes]
  = (Raise (AttributeError "DataFrame" "scan_type"), [NoDuplicateScanTypes])
  ∧ check_incomplete_scans (sample_subject []) [NoDuplicateScanTypes]
    = (Raise (AttributeError "DataFrame" "scan_type"), [NoDuplicateScanTypes]).
Proof.
  apply (checks_raise_without_scans (sample_subject []) [NoDuplicateScanTypes]).
  reflexivity.
Defined.

(** X9: on a subject with at least one scan the incomplete check raises
    nothing and prints one line; it passes exactly when no scan type has
    one of the markers in it, letter for letter; otherwise the listing has
    exactly the rows whose scan type has one, under their row numbers. *)
Theorem check_incomplete_scans_verdict xnat_subject scans out :
  scan_df xnat_subject = DataFrame_of scans → scans ≠ [] →
  ∃ line, check_incomplete_scans xnat_subject out = (Ok (), out ++ [line])
    ∧ (line = NoIncompleteOrUnusableScans ↔
       ∀ v, v ∈ map scan_type scans → any_bad_string v = false)
    ∧ (∀ k v, (k, v) ∈ listing_of line ↔
         map scan_type scans !! k = Some v ∧ any_bad_string v = true).
Proof.
  intros Hdf Hne. eexists. split; [by apply check_incomplete_scans_run|].
  rewrite scan_type_column.
  set (bad := filter _ _).
  assert (∀ k v, (k, v) ∈ bad ↔
            map scan_type scans !! k = Some v ∧ any_bad_string v = true) as Hbad.
  { intros k v. unfold bad. rewrite list_elem_of_filter, enumerate_from_elem. simpl. split.
    - intros [Hv (j & -> & Hj)]. done.
    - intros [Hk Hv]. split; [done|]. by exists k. }
  assert (bad = [] ↔ ∀ v, v ∈ map scan_type scans → any_bad_string v = false) as Hnil.
  { unfold bad. rewrite filter_nil_iff. split.
    - intros Hnone v [k Hk]%list_elem_of_lookup.
      destruct (any_bad_string v) eqn:Hv; [|done].
      destruct (Hnone (k, v)); [|done]. apply enumerate_from_elem. by exists k.
    - intros Hnone [k v] (j & _ & Hj)%enumerate_from_elem. simpl.
      rewrite (Hnone v); [done|]. by apply list_elem_of_lookup_2 in Hj. }
  destruct (bool_decide (bad = [])) eqn:Hdec.
  - apply bool_decide_eq_true in Hdec. split; [by rewrite <-Hnil|].
    intros k v. simpl. rewrite <-Hbad, Hdec. done.
  - apply bool_decide_eq_false in Hdec. split; [|done].
    split; [discriminate|]. intros Hnone. by apply Hnil in Hnone.
Qed.

Lemma check_incomplete_scans_verdict_sample :
  ∃ line, check_incomplete_scans
            (sample_subject [mkScan "1" "T1" "T1w"; mkScan "2" "T1" "T1w_bad"]) []
          = (Ok (), [] ++ [line])
    ∧ (line = NoIncompleteOrUnusableScans ↔
       ∀ v, v ∈ map scan_type [mkScan "1" "T1" "T1w"; mkScan "2" "T1" "T1w_bad"] →
            any_bad_string v = false)
    ∧ (∀ k v, (k, v) ∈ listing_of line ↔
         map scan_type [mkScan "1" "T1" "T1w"; mkScan "2" "T1" "T1w_bad"] !! k = Some v
         ∧ any_bad_string v = true).
Proof.
  apply (check_incomplete_scans_verdict
           (sample_subject [mkScan "1" "T1" "T1w"; mkScan "2" "T1" "T1w_bad"])
           [mkScan "1" "T1" "T1w"; mkScan "2" "T1" "T1w_bad"] []).
  - reflexivity.
  - discriminate.
Defined.

Lemma prefix_app_l (s1 s2 x : string) :
  String.prefix (s1 +:+ s2) x = true → String.prefix s1 x = true.
Proof.
  revert x; induction s1 as [|a s1 IH]; intros [|b x]; simpl; try done.
  destruct (Ascii.ascii_dec a b); [apply IH|done].
Qed.

Lemma str_in_unfold (s x : string) :
  str_in s x =
  if String.prefix s x then true
  else match x with
       | EmptyString => false
       | String _ x' => str_in s x'
       end.
Proof. by destruct x. Qed.

(** A string that has [s1 +:+ s2] in it has [s1] in it. *)
Lemma str_in_app_l (s1 s2 x : string) :
  str_in (s1 +:+ s2) x = true → str_in s1 x = true.
Proof.
  induction x as [|b x IH]; rewrite (str_in_unfold (s1 +:+ s2)), (str_in_unfold s1).
  - destruct (String.prefix (s1 +:+ s2) "") eqn:Hp; [|done].
    intros _. by rewrite (prefix_app_l _ _ _ Hp).
  - destruct (String.prefix (s1 +:+ s2) (String b x)) eqn:Hp.
    + intros _. by rewrite (prefix_app_l _ _ _ Hp).
    + intros Hin. rewrite (IH Hin). by destruct (String.prefix s1 (String b x)).
Qed.

(** X10: the marker [incomplete] never decides: a scan type is marked
    exactly when it has [inc] or [bad] in it, since whatever has
    [incomplete] in it has [inc] in it. *)
Theorem any_bad_string_inc_or_bad (x : string) :
  any_bad_string x = str_in "inc" x || str_in "bad" x.
Proof.
  unfold any_bad_string, bad_strings. simpl.
  destruct (str_in "incomplete" x) eqn:Hinc.
  - rewrite (str_in_app_l "inc" "omplete" x Hinc). done.
  - by rewrite !orb_false_r.
Qed.

Lemma occurrences_elem (v : string) (types : list string) :
  v ∈ types → 1 ≤ occurrences v types.
Proof.
  unfold occurrences. intros Hin.
  assert (v ∈ filter (λ t, t = v) types) as Hf by (by apply list_elem_of_filter).
  destruct (filter (λ t, t = v) types); [by apply elem_of_nil in Hf|simpl; lia].
Qed.

(** A value at a position and once more before it occurs twice at least. *)
Lemma occurrences_repeat (v : string) (types : list string) (k : nat) :
  types !! k = Some v → v ∈ take k types → 2 ≤ occurrences v types.
Proof.
  intros Hk Htake. apply occurrences_elem in Htake.
  rewrite <-(take_drop k types). unfold occurrences in *.
  rewrite filter_app, length_app.
  rewrite (drop_S _ _ _ Hk), filter_cons_True by done. simpl. lia.
Qed.

(** X11: the duplicate check lists no row whose scan type is the only one
    of its kind: the scan type of every listed row occurs at least twice
    among the scans, and the row is listed under its row number. *)
Theorem check_duplicate_scans_lists_repeats_only xnat_subject scans out :
  scan_df xnat_subject = DataFrame_of scans → scans ≠ [] →
  ∃ line, check_duplicate_scans xnat_subject out = (Ok (), out ++ [line])
    ∧ ∀ k v, (k, v) ∈ listing_of line →
             map scan_type scans !! k = Some v
             ∧ 2 ≤ occurrences v (map scan_type scans).
Proof.
  intros Hdf Hne.
  destruct (check_duplicate_scans_line xnat_subject scans out Hdf Hne)
    as (line & Hrun & Hlist & _).
  exists line. split; [done|]. rewrite Hlist.
  intros k v (j & Hkj & Hj & [Hseen|Htake])%later_rows_from_elem;
    [by apply elem_of_nil in Hseen|].
  simpl in Hkj. subst j. split; [done|]. by apply (occurrences_repeat v _ k).
Qed.

Lemma check_duplicate_scans_lists_repeats_only_sample :
  ∃ line, check_duplicate_scans (sample_subject dup_scans) [] = (Ok (), [] ++ [line])
    ∧ ∀ k v, (k, v) ∈ listing_of line →
             map scan_type dup_scans !! k = Some v
             ∧ 2 ≤ occurrences v (map scan_type dup_scans).
Proof.
  apply (check_duplicate_scans_lists_repeats_only (sample_subject dup_scans) dup_scans []).
  - reflexivity.
  - discriminate.
Defined.

(** The listing of the duplicate check is computed from the scan types. *)
Lemma later_rows_from_types (scans scans' : list Scan) (i : nat) (seen : list string) :
  map scan_type scans = map scan_type scans' →
  later_rows_from i seen scans = later_rows_from i seen scans'.
Proof.
  revert scans' i seen; induction scans as [|s scans IH];
    intros [|s' scans'] i seen Htypes; try done.
  injection Htypes as Hs Htypes.
  rewrite !later_rows_from_cons, Hs. f_equal. by apply IH.
Qed.

(** X12: the two checks read the scan types and nothing else: two
    subjects whose scans have the same scan types in the same order get the
    same result and the same printed line from each check, whatever their
    labels, sessions, scan IDs and series descriptions are. *)
Theorem checks_read_scan_types_only (x y : XnatSubject) (scans scans' : list Scan)
    (out : list Line) :
  scan_df x = DataFrame_of scans → scan_df y = DataFrame_of scans' →
  map scan_type scans = map scan_type scans' →
  check_duplicate_scans x out = check_duplicate_scans y out
  ∧ check_incomplete_scans x out = check_incomplete_scans y out.
Proof.
  intros Hx Hy Htypes.
  destruct scans as [|s scans], scans' as [|s' scans']; try done.
  - unfold check_duplicate_scans, check_incomplete_scans. by rewrite Hx, Hy.
  - rewrite (check_duplicate_scans_run x (s :: scans)),
      (check_duplicate_scans_run y (s' :: scans')) by done.
    rewrite (check_incomplete_scans_run x (s :: scans)),
      (check_incomplete_scans_run y (s' :: scans')) by done.
    rewrite !scan_type_column, Htypes.
    by rewrite (later_rows_from_types _ _ 0 [] Htypes).
Qed.

Lemma checks_read_scan_types_only_sample :
  check_duplicate_scans (sample_subject dup_scans) []
  = check_duplicate_scans
      {| subject := "RC3017"; database := "RC3";
         meta := mkMeta "RC3" 1 [] [] [] [];
         session_df := DataFrame_of [];
         scan_df := DataFrame_of [mkScan "7" "a" "T1w"; mkScan "8" "b" "T1w";
                                  mkScan "9" "c" "T2w"] |} []
  ∧ check_incomplete_scans (sample_subject dup_scans) []
    = check_incomplete_scans
        {| subject := "RC3017"; database := "RC3";
           meta := mkMeta "RC3" 1 [] [] [] [];
           session_df := DataFrame_of [];
           scan_df := DataFrame_of [mkScan "7" "a" "T1w"; mkScan "8" "b" "T1w";
                                    mkScan "9" "c" "T2w"] |} [].
Proof.
  apply (checks_read_scan_types_only (sample_subject dup_scans) _ dup_scans
           [mkScan "7" "a" "T1w"; mkScan "8" "b" "T1w"; mkScan "9" "c" "T2w"] []).
  - reflexivity.
  - reflexivity.
  - reflexivity.
Defined.

(** ** Load, then check *)

Section LoadThenCheck.
Context {World : Type} `{Interface World}.

(** X13: load, then check: for a subject with one session that has at
    least one scan, the constructor returns an object on which both checks
    return; the duplicate check passes exactly when the scans [list_scans]
    gave have pairwise different scan types, and the incomplete check
    passes exactly when none of these scan types has a marker in it. *)
Theorem load_then_check (label db : string) (r : Remote World) sess out :
  list_sessions (world r) db label = [sess] →
  list_scans (world r) db label (sess_label sess) ≠ [] →
  ∃ s dup inc,
    XnatSubject_init label db r = (Ok s, r)
    ∧ check_duplicate_scans s out = (Ok (), out ++ [dup])
    ∧ check_incomplete_scans s (out ++ [dup]) = (Ok (), out ++ [dup; inc])
    ∧ (dup = NoDuplicateScanTypes ↔
       NoDup (map scan_type (list_scans (world r) db label (sess_label sess))))
    ∧ (inc = NoIncompleteOrUnusableScans ↔
       ∀ v, v ∈ map scan_type (list_scans (world r) db label (sess_label sess)) →
            any_bad_string v = false).
Proof.
  intros Hone Hscans.
  pose proof (get_metadata_single label db r sess Hone) as Hload.
  set (scans := list_scans (world r) db label (sess_label sess)) in *.
  match type of Hload with _ = (Ok ?o, _) => set (s := o) in * end.
  destruct (check_duplicate_scans_line s scans out eq_refl Hscans)
    as (dup & Hdup & _ & Hpass).
  exists s, dup. eexists. split; [exact Hload|]. split; [exact Hdup|].
  rewrite (check_incomplete_scans_run s scans) by done.
  rewrite <-app_assoc. split; [reflexivity|]. split.
  - rewrite Hpass, later_rows_from_nil. split; [by intros [_ ?]|].
    intros Hnodup. split; [|done]. intros v _. apply not_elem_of_nil.
  - rewrite scan_type_column.
    destruct (bool_decide _) eqn:Hdec.
    + apply bool_decide_eq_true in Hdec. split; [intros _|done].
      intros v [k Hk]%list_elem_of_lookup.
      destruct (any_bad_string v) eqn:Hv; [|done].
      apply (filter_nil_not_elem_of _ _ (k, v)) in Hdec; [|done].
      destruct Hdec. apply enumerate_from_elem. by exists k.
    + apply bool_decide_eq_false in Hdec. split; [discriminate|].
      intros Hnone. destruct Hdec. apply filter_nil_iff.
      intros [k v] (j & _ & Hj)%enumerate_from_elem. simpl.
      rewrite (Hnone v); [done|]. by apply list_elem_of_lookup_2 in Hj.
Qed.

End LoadThenCheck.

Lemma load_then_check_sample :
  ∃ s dup inc,
    @XnatSubject_init Server (Server_interface []) "LD4001_v1" "CUTTING"
      (mkRemote (sample_server dup_scans) [])
    = (Ok s, mkRemote (sample_server dup_scans) [])
    ∧ check_duplicate_scans s [] = (Ok (), [] ++ [dup])
    ∧ check_incomplete_scans s ([] ++ [dup]) = (Ok (), [] ++ [dup; inc])
    ∧ (dup = NoDuplicateScanTypes ↔
       NoDup (map scan_type
                (@list_scans Server (Server_interface []) (sample_server dup_scans)
                   "CUTTING" "LD4001_v1" (sess_label sample_session))))
    ∧ (inc = NoIncompleteOrUnusableScans ↔
       ∀ v, v ∈ map scan_type
                  (@list_scans Server (Server_interface []) (sample_server dup_scans)
                     "CUTTING" "LD4001_v1" (sess_label sample_session)) →
            any_bad_string v = false).
Proof.
  apply (@load_then_check Server (Server_interface []) "LD4001_v1" "CUTTING"
           (mkRemote (sample_server dup_scans) []) sample_session []).
  - reflexivity.
  - discriminate.
Defined.
